(** * keystore.KeypairFromAddress: a shallow embedding

    The Go function [KeypairFromAddress] of [keystore/keystore.go] loads an
    encrypted key file, asks for its password, derives the decryption key
    and scrubs the byte slices it went through.

    The function is effectful in three ways, and the embedding keeps all
    three explicit:
    - byte slices are views on shared backing arrays ([heap]), written in
      place by the scrubbing loops and, capacity permitting, by [append];
    - the calls that leave the file ([os.Stat], [GetPassword],
      [hash.HashPasswordIteratively], [ReadFromFileAndDecrypt],
      [insecureKeypairFromAddress], [DeleteKeyPair]) are recorded, in
      order, in a [trace];
    - a run either returns or stops on a run-time panic ([Fault]). *)

From Stdlib Require Import Strings.String Lists.List Strings.Byte Lia Bool Arith.
From stdpp Require Import base option list strings gmap.

Local Open Scope string_scope.
Local Open Scope list_scope.

(** ** Go values *)

(** A Go [error] value, observed through its message. *)
Inductive error : Type :=
| errorString (msg : string).

(** A slice header: backing array (none for the nil slice), length and
    capacity. Every slice met in [KeypairFromAddress] starts at the first
    cell of its backing array. *)
Record slice : Type := mkSlice {
  base : option nat;
  len : nat;
  cap : nat
}.

Definition nil_slice : slice := {| base := None; len := 0; cap := 0 |}.

Definition slice_is_nil (s : slice) : bool :=
  match base s with
  | None => true
  | Some _ => false
  end.

(** What a callee hands back as a [[]byte]: the bytes the slice shows and
    the rest of its backing array, which counts for the capacity only. *)
Record buffer : Type := mkBuffer {
  content : list byte;
  spare : list byte
}.

(** The three results of [hash.HashPasswordIteratively]. *)
Record derived : Type := mkDerived {
  d_hash : buffer;
  d_salt : buffer;
  d_err : option error
}.

(** Run-time panics of the Go runtime that this code can reach. *)
Inductive panic : Type :=
| IndexOutOfRange
| NilDereference.

Inductive result (A : Type) : Type :=
| Val (a : A)
| Fault (p : panic).

Arguments Val {A} a.
Arguments Fault {A} p.

Definition EnvPassword : string := "KEYSTORE_PASSWORD".

Definition keyMapping : gmap string string :=
  {[ "ethereum" := "secp256k1"; "substrate" := "sr25519" ]}.

(** [keyMapping[chainType]]: a missing key reads as the zero value of
    [string]. *)
Definition keyMapping_index (chainType : string) : string :=
  default "" (keyMapping !! chainType).

(** [fmt.Sprintf("%s/%s.key", path, addr)] *)
Definition key_file (path addr : string) : string :=
  path +:+ "/" +:+ addr +:+ ".key".

(** [fmt.Sprintf("Enter password for key %s:", path)] *)
Definition password_prompt (path : string) : string :=
  "Enter password for key " +:+ path +:+ ":".

(** [fmt.Errorf("key file not found: %s", path)] *)
Definition key_file_not_found (path : string) : error :=
  errorString ("key file not found: " +:+ path).

Section Keystore.

Context {Keypair Enclave : Type}.

(** The triple every retrieval function returns:
    [(crypto.Keypair, *memguard.Enclave, error)]; [None] is [nil]. *)
Definition triple : Type := option Keypair * option Enclave * option error.

(** The functions [KeypairFromAddress] calls and that live in other files
    or packages, together with the capacity the runtime picks when
    [append] has to grow a slice (old capacity, needed length). *)
Record externals : Type := mkExternals {
  insecureKeypairFromAddress : string -> string -> triple;
  os_Stat : string -> option error;
  os_IsNotExist : option error -> bool;
  GetPassword : string -> buffer;
  HashPasswordIteratively : list byte -> derived;
  ReadFromFileAndDecrypt : string -> list byte -> string -> triple;
  growslice : nat -> nat -> nat
}.

(** One entry per call that leaves [KeypairFromAddress], with the
    arguments passed and, for the slice-returning ones, the slices
    received. [EvGetenv] stands for [os.Getenv]. *)
Inductive event : Type :=
| EvInsecure (path chainType : string)
| EvStat (path : string)
| EvGetenv (name : string)
| EvGetPassword (prompt : string) (pswd : slice)
| EvHash (pswd : list byte) (hshPwd salt : slice) (err : option error)
| EvDecrypt (path : string) (key : list byte) (keytype : string)
| EvDeleteKeyPair (kp : Keypair).

Record state : Type := mkState {
  heap : list (list byte);
  trace : list event
}.

Definition set_heap (f : list (list byte) -> list (list byte)) (st : state) : state :=
  {| heap := f (heap st); trace := trace st |}.

(** ** The monad of Go statements *)

Definition go (A : Type) : Type := state -> result A * state.

#[export] Instance go_ret : MRet go := fun A a st => (Val a, st).

#[export] Instance go_bind : MBind go := fun A B f m st =>
  match m st with
  | (Val a, st') => f a st'
  | (Fault p, st') => (Fault p, st')
  end.

Definition emit (e : event) : go unit :=
  fun st => (Val tt, {| heap := heap st; trace := trace st ++ [e] |}).

(** The bytes a slice shows in a heap. *)
Definition view (h : list (list byte)) (s : slice) : list byte :=
  match base s with
  | Some l => take (len s) (default [] (h !! l))
  | None => []
  end.

Definition read (s : slice) : go (list byte) :=
  fun st => (Val (view (heap st) s), st).

(** A callee's result lands in a backing array of its own. *)
Definition alloc (b : buffer) : go slice :=
  fun st =>
    (Val {| base := Some (length (heap st));
            len := length (content b);
            cap := length (content b) + length (spare b) |},
     set_heap (fun h => h ++ [content b ++ spare b]) st).

(** [s[i] = v], with Go's bounds check. The nil slice has length zero, so
    that no index passes the check on it. *)
Definition store (s : slice) (i : nat) (v : byte) : go unit :=
  fun st =>
    if decide (i < len s) then
      match base s with
      | Some l => (Val tt, set_heap (alter (fun a => <[i:=v]> a) l) st)
      | None => (Fault IndexOutOfRange, st)
      end
    else (Fault IndexOutOfRange, st).

(** [for i := i; i < len(s); i++ { s[i] = 0 }], with [n] the number of
    rounds left. *)
Fixpoint zero_from (s : slice) (i n : nat) : go unit :=
  match n with
  | O => mret tt
  | S n' => store s i x00 ;; zero_from s (S i) n'
  end.

Definition zero (s : slice) : go unit := zero_from s 0 (len s).

Variable X : externals.

(** [append(s, t...)]: in place when the capacity of [s] allows it, in a
    new backing array otherwise. *)
Definition append (s t : slice) : go slice :=
  fun st =>
    let h := heap st in
    let src := view h t in
    let need := len s + length src in
    if decide (need <= cap s) then
      match base s with
      | Some l =>
          (Val {| base := Some l; len := need; cap := cap s |},
           set_heap (alter (fun a => take (len s) a ++ src ++ drop need a) l) st)
      | None => (Val s, st)
      end
    else
      let newcap := Nat.max need (growslice X (cap s) need) in
      (Val {| base := Some (length h); len := need; cap := newcap |},
       set_heap (fun h => h ++ [view h s ++ src ++ replicate (newcap - need) x00]) st).

(** ** The calls out of the function *)

Definition call_insecureKeypairFromAddress (path chainType : string) : go triple :=
  emit (EvInsecure path chainType) ;;
  mret (insecureKeypairFromAddress X path chainType).

Definition call_os_Stat (path : string) : go (option error) :=
  emit (EvStat path) ;;
  mret (os_Stat X path).

Definition call_GetPassword (prompt : string) : go slice :=
  pswd ← alloc (GetPassword X prompt);
  emit (EvGetPassword prompt pswd) ;;
  mret pswd.

Definition call_HashPasswordIteratively (pswd : slice) : go (slice * slice * option error) :=
  password ← read pswd;
  let d := HashPasswordIteratively X password in
  hshPwd ← alloc (d_hash d);
  salt ← alloc (d_salt d);
  emit (EvHash password hshPwd salt (d_err d)) ;;
  mret (hshPwd, salt, d_err d).

Definition call_ReadFromFileAndDecrypt (path : string) (password : slice) (keytype : string)
  : go triple :=
  key ← read password;
  emit (EvDecrypt path key keytype) ;;
  mret (ReadFromFileAndDecrypt X path key keytype).

(** [kp.DeleteKeyPair()]: a method call on a value of the interface type
    [crypto.Keypair]. On the nil interface value the call panics; on any
    other value it runs the method of the implementation, which is taken
    to return. *)
Definition call_DeleteKeyPair (kp : option Keypair) : go unit :=
  match kp with
  | Some k => emit (EvDeleteKeyPair k)
  | None => fun st => (Fault NilDereference, st)
  end.

(** ** KeypairFromAddress *)

Definition KeypairFromAddress (addr chainType path : string) (insecure : bool) : go triple :=
  if insecure then call_insecureKeypairFromAddress path chainType
  else
    let path := key_file path addr in
    err ← call_os_Stat path;
    if os_IsNotExist X err then
      mret (None, None, Some (key_file_not_found path))
    else
      let pswd := nil_slice in
      pswd ← (if slice_is_nil pswd
              then call_GetPassword (password_prompt path)
              else mret pswd);
      '(hshPwd, salt, err) ← call_HashPasswordIteratively pswd;
      zero pswd ;;
      match err with
      | Some e =>
          zero hshPwd ;;
          zero salt ;;
          mret (None, None, Some e)
      | None =>
          hshPwd ← append hshPwd salt;
          zero salt ;;
          '(kp, key, err) ← call_ReadFromFileAndDecrypt path hshPwd (keyMapping_index chainType);
          zero hshPwd ;;
          match err with
          | Some e =>
              call_DeleteKeyPair kp ;;
              mret (None, None, Some e)
          | None => mret (kp, key, None)
          end
      end.

End Keystore.

(** ** Observations on a finished run *)

#[export] Instance byte_eq_decision : EqDecision byte := Byte.byte_eq_dec.

(** A slice is scrubbed in a heap when every byte it shows is zero. *)
Definition scrubbed (h : list (list byte)) (s : slice) : Prop :=
  view h s = replicate (len s) x00.

#[export] Instance scrubbed_dec h s : Decision (scrubbed h s).
Proof. unfold scrubbed. apply _. Defined.

(** The backing array of a received buffer once its slice is zeroed. *)
Definition wiped (b : buffer) : list byte :=
  replicate (length (content b)) x00 ++ spare b.

(** The slice in which the [k]-th buffer received during a call lands,
    when the call started in heap [h0]. *)
Definition received (h0 : list (list byte)) (k : nat) (b : buffer) : slice :=
  {| base := Some (length h0 + k);
     len := length (content b);
     cap := length (content b) + length (spare b) |}.

Section Observations.

Context {Keypair Enclave : Type}.

(** The heap a call starts in is whatever the process holds; the trace
    starts empty. *)
Definition init (h0 : list (list byte)) : @state Keypair :=
  {| heap := h0; trace := [] |}.

(** One call of [KeypairFromAddress]: its result, or the panic that
    stopped it, and the heap and trace it leaves. *)
Definition run (X : @externals Keypair Enclave) (addr chainType path : string)
    (insecure : bool) (h0 : list (list byte))
  : result (@triple Keypair Enclave) * @state Keypair :=
  KeypairFromAddress X addr chainType path insecure (init h0).

Definition is_Insecure (e : @event Keypair) : bool :=
  match e with EvInsecure _ _ => true | _ => false end.

Definition is_Stat (e : @event Keypair) : bool :=
  match e with EvStat _ => true | _ => false end.

Definition is_Getenv (e : @event Keypair) : bool :=
  match e with EvGetenv _ => true | _ => false end.

Definition is_GetPassword (e : @event Keypair) : bool :=
  match e with EvGetPassword _ _ => true | _ => false end.

Definition is_Decrypt (e : @event Keypair) : bool :=
  match e with EvDecrypt _ _ _ => true | _ => false end.

(** The argument lists of the calls to [ReadFromFileAndDecrypt]. *)
Definition decrypt_calls (t : list (@event Keypair)) : list (string * list byte * string) :=
  flat_map (fun e => match e with
                     | EvDecrypt p key kt => [(p, key, kt)]
                     | _ => []
                     end) t.

(** What the callees answer in a call with password protection. *)
Definition the_password (X : @externals Keypair Enclave) (addr path : string) : buffer :=
  GetPassword X (password_prompt (key_file path addr)).

Definition the_derivation (X : @externals Keypair Enclave) (addr path : string) : derived :=
  HashPasswordIteratively X (content (the_password X addr path)).

Definition the_hash (X : @externals Keypair Enclave) (addr path : string) : buffer :=
  d_hash (the_derivation X addr path).

Definition the_salt (X : @externals Keypair Enclave) (addr path : string) : buffer :=
  d_salt (the_derivation X addr path).

Definition the_key (X : @externals Keypair Enclave) (addr path : string) : list byte :=
  content (the_hash X addr path) ++ content (the_salt X addr path).

Definition the_decryption (X : @externals Keypair Enclave) (addr chainType path : string)
  : @triple Keypair Enclave :=
  ReadFromFileAndDecrypt X (key_file path addr) (the_key X addr path)
    (keyMapping_index chainType).

(** The calls made up to and including the derivation, [err] being the
    error the derivation answered. *)
Definition trace_to_derivation (X : @externals Keypair Enclave) (addr path : string)
    (h0 : list (list byte)) (err : option error) : list (@event Keypair) :=
  [EvStat (key_file path addr);
   EvGetPassword (password_prompt (key_file path addr))
     (received h0 0 (the_password X addr path));
   EvHash (content (the_password X addr path))
     (received h0 1 (the_hash X addr path))
     (received h0 2 (the_salt X addr path)) err].

(** How the function ends once [ReadFromFileAndDecrypt] has answered [dec]
    and the key slice is zeroed. *)
Definition conclude (dec : @triple Keypair Enclave) (st : @state Keypair)
  : result (@triple Keypair Enclave) * @state Keypair :=
  let '(kp, key, err) := dec in
  match err, kp with
  | None, _ => (Val (kp, key, None), st)
  | Some e, Some k =>
      (Val (None, None, Some e),
       {| heap := heap st; trace := trace st ++ [EvDeleteKeyPair k] |})
  | Some e, None => (Fault NilDereference, st)
  end.

(** Modelled from the spec: [hash.HashPasswordIteratively] is called by
    [KeypairFromAddress] but defined in another package. Of key derivation
    the specification says that it "fails with DerivationError if the
    password is empty". *)
Definition derivation_rejects_empty (X : @externals Keypair Enclave) : Prop :=
  is_Some (d_err (HashPasswordIteratively X [])).

(** The slice [append(hshPwd, salt...)] answers, and the decryption is
    handed, in a call that started in heap [h0]: the array of the hash
    when the salt fits its spare room, the fourth array of the call
    otherwise. *)
Definition key_slice (X : @externals Keypair Enclave) (addr path : string)
    (h0 : list (list byte)) : slice :=
  let need := length (the_key X addr path) in
  let room := length (content (the_hash X addr path)) + length (spare (the_hash X addr path)) in
  if decide (length (content (the_salt X addr path)) <= length (spare (the_hash X addr path)))
  then {| base := Some (length h0 + 1); len := need; cap := room |}
  else {| base := Some (length h0 + 3); len := need;
          cap := Nat.max need (growslice X room need) |}.

End Observations.

(** ** Concrete worlds

    Key pairs and enclaves are numbered; the key file of address [abc]
    in [/keys] is asked for. *)

Definition DerivationError : error := errorString "DerivationError".
Definition IntegrityError : error := errorString "IntegrityError".
Definition UnsupportedKeyType : error := errorString "UnsupportedKeyType".

(** A derivation that answers a two-byte hash, whose backing array has
    the given spare room, and a one-byte salt. *)
Definition sample_derivation (room : list byte) (password : list byte) : derived :=
  match password with
  | [] => {| d_hash := mkBuffer [] []; d_salt := mkBuffer [] []; d_err := Some DerivationError |}
  | _ :: _ => {| d_hash := mkBuffer [x0a; x0b] room;
                d_salt := mkBuffer [x0c] [];
                d_err := None |}
  end.

(** Modelled from the spec: [ReadFromFileAndDecrypt] is called by
    [KeypairFromAddress] but defined in another file. The specification
    knows the key types secp256k1 and sr25519, has the core "reject tags
    without a registered implementation" with [UnsupportedKeyType], and
    lets a failed retrieval return "a tagged error; no partial KeyPair". *)
Definition decrypt_registered_only (p : string) (key : list byte) (keytype : string)
  : @triple nat nat :=
  if bool_decide (keytype = "secp256k1" \/ keytype = "sr25519")
  then (Some 1, Some 2, None)
  else (None, None, Some UnsupportedKeyType).

(** A decryption that succeeds, with key pair 1 in enclave 2. *)
Definition decrypt_succeeds (p : string) (key : list byte) (keytype : string)
  : @triple nat nat :=
  (Some 1, Some 2, None).

(** A decryption that fails on the integrity check, as for a wrong
    password, and returns no key pair with its error. *)
Definition decrypt_wrong_password (p : string) (key : list byte) (keytype : string)
  : @triple nat nat :=
  (None, None, Some IntegrityError).

(** A decryption that fails and still returns a key pair with its
    error. *)
Definition decrypt_fails_with_keypair (p : string) (key : list byte) (keytype : string)
  : @triple nat nat :=
  (Some 1, None, Some IntegrityError).

Definition world (missing : bool) (password room : list byte)
    (decrypt : string -> list byte -> string -> @triple nat nat) : @externals nat nat :=
  {| insecureKeypairFromAddress := fun _ _ => (Some 7, Some 8, None);
     os_Stat := fun _ => if missing then Some (errorString "no such file or directory") else None;
     os_IsNotExist := fun e => match e with Some _ => true | None => false end;
     GetPassword := fun _ => mkBuffer password [];
     HashPasswordIteratively := sample_derivation room;
     ReadFromFileAndDecrypt := decrypt;
     growslice := fun old need => 2 * old |}.

(** Two errors of [os.Stat]. With the first the file is not there; with
    the second a component of its path, here the keystore directory
    itself, is not a directory, so that there is no key file either. *)
Definition ENOENT : error := errorString "no such file or directory".
Definition ENOTDIR : error := errorString "not a directory".

(** [os.IsNotExist] of the Go library: it holds of [ENOENT], and of no
    other error of [os.Stat], [ENOTDIR] included. *)
Definition IsNotExist_errno (e : option error) : bool :=
  match e with
  | Some (errorString msg) => String.eqb msg "no such file or directory"
  | None => false
  end.

(** A decryption that cannot read the key file and returns no key pair
    with its error. *)
Definition decrypt_cannot_read (p : string) (key : list byte) (keytype : string)
  : @triple nat nat :=
  (None, None, Some ENOTDIR).

(** The world in which the keystore path is not a directory. *)
Definition world_not_a_directory : @externals nat nat :=
  {| insecureKeypairFromAddress := fun _ _ => (Some 7, Some 8, None);
     os_Stat := fun _ => Some ENOTDIR;
     os_IsNotExist := IsNotExist_errno;
     GetPassword := fun _ => mkBuffer [x70; x77] [];
     HashPasswordIteratively := sample_derivation [];
     ReadFromFileAndDecrypt := decrypt_cannot_read;
     growslice := fun old need => 2 * old |}.

(** * Lemmas *)

(** ** Backing arrays and the scrubbing loop *)

Section Memory.

Context {Keypair : Type}.

#[local] Abbreviation state := (@state Keypair).

Lemma init_app_nil h0 : init h0 = ({| heap := h0 ++ []; trace := [] |} : state).
Proof. unfold init. by rewrite app_nil_r. Qed.

Lemma alter_lookup_insert {A} (f : A -> A) (l : list A) i a :
  l !! i = Some a -> alter f i l = <[i := f a]> l.
Proof.
  revert i. induction l as [|x l IH]; intros [|i] Hi; simpl in *; try done.
  - by inversion Hi.
  - f_equal. by apply IH.
Qed.

Lemma store_run (s : slice) i v (st : state) l a :
  base s = Some l -> heap st !! l = Some a -> i < len s ->
  store s i v st = (Val tt, set_heap (fun h => <[l := <[i := v]> a]> h) st).
Proof.
  intros Hb Hl Hi. unfold store, set_heap.
  destruct (decide (i < len s)) as [_|]; [|lia].
  rewrite Hb. by rewrite (alter_lookup_insert _ _ _ _ Hl).
Qed.

Lemma zero_array_step (a : list byte) i n :
  i < length a ->
  take (S i) (<[i := x00]> a) ++ replicate n x00 ++ drop (S i + n) (<[i := x00]> a) =
  take i a ++ replicate (S n) x00 ++ drop (i + S n) a.
Proof.
  intros Hi. rewrite insert_take_drop by done.
  assert (Hlen : length (take i a) = i) by (rewrite length_take; lia).
  rewrite take_app, drop_app, Hlen.
  rewrite (take_ge (take i a)) by lia.
  rewrite (drop_ge (take i a)) by lia.
  replace (S i - i) with 1 by lia.
  replace (S i + n - i) with (S n) by lia.
  simpl. rewrite take_0, drop_drop, <- app_assoc. simpl.
  by replace (i + S n) with (S i + n) by lia.
Qed.

Lemma zero_from_run (s : slice) l n : forall i (st : state) a,
  base s = Some l -> heap st !! l = Some a ->
  i + n <= len s -> len s <= length a ->
  zero_from s i n st =
    (Val tt, set_heap (fun h => <[l := take i a ++ replicate n x00 ++ drop (i + n) a]> h) st).
Proof.
  induction n as [|n IH]; intros i st a Hb Hl Hin Hlen.
  - simpl. unfold mret, go_ret, set_heap. f_equal.
    rewrite Nat.add_0_r, take_drop, list_insert_id by done. by destruct st.
  - simpl. unfold mbind, go_bind.
    rewrite (store_run s i x00 st l a) by (done || lia).
    rewrite (IH (S i) _ (<[i := x00]> a)); simpl; try done; try lia.
    + unfold set_heap; simpl. f_equal. f_equal.
      rewrite list_insert_insert_eq. f_equal.
      apply zero_array_step. lia.
    + apply list_lookup_insert_eq. by eapply lookup_lt_Some.
    + by rewrite length_insert.
Qed.

Lemma zero_run (s : slice) l (st : state) a :
  base s = Some l -> heap st !! l = Some a -> len s <= length a ->
  zero s st =
    (Val tt, set_heap (fun h => <[l := replicate (len s) x00 ++ drop (len s) a]> h) st).
Proof.
  intros Hb Hl Hlen. unfold zero.
  by rewrite (zero_from_run s l (len s) 0 st a).
Qed.

(** The same, for a backing array allocated during the call: its address
    is counted from the end of the heap the call started in. *)
Lemma zero_rel h0 fr (t : list (@event Keypair)) k n c a :
  fr !! k = Some a -> n <= length a ->
  zero {| base := Some (length h0 + k); len := n; cap := c |}
       {| heap := h0 ++ fr; trace := t |} =
    (Val tt, {| heap := h0 ++ <[k := replicate n x00 ++ drop n a]> fr; trace := t |}).
Proof.
  intros Hk Hn.
  rewrite (zero_run _ (length h0 + k) _ a); simpl; try done.
  - unfold set_heap; simpl. by rewrite insert_app_r.
  - rewrite lookup_app_r by lia. by replace (length h0 + k - length h0) with k by lia.
Qed.

Lemma view_rel h0 fr k n c :
  view (h0 ++ fr) {| base := Some (length h0 + k); len := n; cap := c |} =
    take n (default [] (fr !! k)).
Proof.
  unfold view; simpl. rewrite lookup_app_r by lia.
  by replace (length h0 + k - length h0) with k by lia.
Qed.

Lemma alter_rel {A} (f : A -> A) (h0 fr : list A) k :
  alter f (length h0 + k) (h0 ++ fr) = h0 ++ alter f k fr.
Proof. by rewrite alter_app_r. Qed.

Lemma view_received h0 fr k b :
  fr !! k = Some (content b ++ spare b) ->
  view (h0 ++ fr) (received h0 k b) = content b.
Proof.
  intros Hk. unfold received. rewrite view_rel, Hk. simpl. apply take_app_length.
Qed.

Lemma zero_received h0 fr (t : list (@event Keypair)) k b :
  fr !! k = Some (content b ++ spare b) ->
  zero (received h0 k b) {| heap := h0 ++ fr; trace := t |} =
    (Val tt, {| heap := h0 ++ <[k := wiped b]> fr; trace := t |}).
Proof.
  intros Hk. unfold received.
  rewrite (zero_rel h0 fr t k _ _ _ Hk) by (rewrite length_app; lia).
  by rewrite drop_app_length.
Qed.

Lemma scrubbed_wiped h0 fr k b :
  fr !! k = Some (wiped b) -> scrubbed (h0 ++ fr) (received h0 k b).
Proof.
  intros Hk. unfold scrubbed, received. rewrite view_rel, Hk. simpl.
  unfold wiped. apply take_app_length'. by rewrite length_replicate.
Qed.

Lemma take_two_parts {A} (a b r : list A) :
  take (length a + length b) (a ++ b ++ r) = a ++ b.
Proof. rewrite app_assoc. apply take_app_length'. by rewrite length_app. Qed.

Lemma drop_two_parts {A} (a b r : list A) :
  drop (length a + length b) (a ++ b ++ r) = r.
Proof. rewrite app_assoc. apply drop_app_length'. by rewrite length_app. Qed.

End Memory.

(** ** The calls, one step at a time *)

Section Steps.

Context {Keypair Enclave : Type}.
Variable X : @externals Keypair Enclave.
Variable h0 : list (list byte).

Lemma bind_run {A B} (m : @go Keypair A) (f : A -> @go Keypair B) st a st' :
  m st = (Val a, st') -> (m ≫= f) st = f a st'.
Proof. intros H. unfold mbind, go_bind. by rewrite H. Qed.

Lemma call_os_Stat_run p (st : @state Keypair) :
  call_os_Stat X p st =
    (Val (os_Stat X p), {| heap := heap st; trace := trace st ++ [EvStat p] |}).
Proof. reflexivity. Qed.

Lemma call_GetPassword_rel fr t prompt :
  call_GetPassword X prompt {| heap := h0 ++ fr; trace := t |} =
    (Val (received h0 (length fr) (GetPassword X prompt)),
     {| heap := h0 ++ fr ++ [content (GetPassword X prompt) ++ spare (GetPassword X prompt)];
        trace := t ++ [EvGetPassword prompt (received h0 (length fr) (GetPassword X prompt))] |}).
Proof.
  unfold call_GetPassword, alloc, emit, set_heap, received, mbind, go_bind, mret, go_ret.
  simpl. by rewrite length_app, app_assoc.
Qed.

Lemma call_HashPasswordIteratively_rel fr t s :
  let d := HashPasswordIteratively X (view (h0 ++ fr) s) in
  call_HashPasswordIteratively X s {| heap := h0 ++ fr; trace := t |} =
    (Val (received h0 (length fr) (d_hash d), received h0 (S (length fr)) (d_salt d), d_err d),
     {| heap := h0 ++ fr ++ [content (d_hash d) ++ spare (d_hash d);
                             content (d_salt d) ++ spare (d_salt d)];
        trace := t ++ [EvHash (view (h0 ++ fr) s)
                         (received h0 (length fr) (d_hash d))
                         (received h0 (S (length fr)) (d_salt d)) (d_err d)] |}).
Proof.
  unfold call_HashPasswordIteratively, alloc, read, emit, set_heap, received,
    mbind, go_bind, mret, go_ret.
  simpl. rewrite !length_app. simpl.
  rewrite <- !app_assoc. simpl.
  by replace (length h0 + length fr + 1) with (length h0 + S (length fr)) by lia.
Qed.

Lemma call_ReadFromFileAndDecrypt_run p s kt (st : @state Keypair) :
  call_ReadFromFileAndDecrypt X p s kt st =
    (Val (ReadFromFileAndDecrypt X p (view (heap st) s) kt),
     {| heap := heap st; trace := trace st ++ [EvDecrypt p (view (heap st) s) kt] |}).
Proof. reflexivity. Qed.

(** [append] writes after the hash when the salt fits the spare room of
    its backing array ... *)
Lemma append_in_place fr (t : list (@event Keypair)) k j b c :
  fr !! k = Some (content b ++ spare b) ->
  fr !! j = Some (content c ++ spare c) ->
  length (content c) <= length (spare b) ->
  append X (received h0 k b) (received h0 j c) {| heap := h0 ++ fr; trace := t |} =
    (Val {| base := Some (length h0 + k);
            len := length (content b) + length (content c);
            cap := length (content b) + length (spare b) |},
     {| heap := h0 ++ <[k := content b ++ content c ++ drop (length (content c)) (spare b)]> fr;
        trace := t |}).
Proof.
  intros Hk Hj Hfit. unfold append. cbn [heap].
  rewrite (view_received _ _ j c Hj).
  cbn [received len cap base].
  destruct (decide _) as [_|Hno]; [|lia].
  unfold set_heap. cbn [heap trace].
  rewrite alter_rel, (alter_lookup_insert _ _ _ _ Hk).
  by rewrite take_app_length, drop_app_add.
Qed.

(** ... and copies hash and salt to a new backing array when it does
    not; the old array is left as it was. *)
Lemma append_grown fr (t : list (@event Keypair)) k j b c :
  fr !! k = Some (content b ++ spare b) ->
  fr !! j = Some (content c ++ spare c) ->
  length (spare b) < length (content c) ->
  let need := length (content b) + length (content c) in
  let newcap := Nat.max need (growslice X (length (content b) + length (spare b)) need) in
  append X (received h0 k b) (received h0 j c) {| heap := h0 ++ fr; trace := t |} =
    (Val {| base := Some (length h0 + length fr); len := need; cap := newcap |},
     {| heap := h0 ++ fr ++ [content b ++ content c ++ replicate (newcap - need) x00];
        trace := t |}).
Proof.
  intros Hk Hj Hbig need newcap. unfold append, set_heap. cbn [heap trace].
  rewrite (view_received _ _ j c Hj), (view_received _ _ k b Hk).
  cbn [received len cap base].
  destruct (decide _) as [Hyes|_]; [lia|].
  subst need newcap. by rewrite length_app, <- app_assoc.
Qed.

End Steps.

(** ** The runs of KeypairFromAddress, path by path *)

Section Runs.

Context {Keypair Enclave : Type}.
Variable X : @externals Keypair Enclave.
Variables addr chainType path : string.
Variable h0 : list (list byte).

#[local] Abbreviation file := (key_file path addr).
#[local] Abbreviation password := (the_password X addr path).
#[local] Abbreviation hash := (the_hash X addr path).
#[local] Abbreviation salt := (the_salt X addr path).
#[local] Abbreviation key := (the_key X addr path).

Lemma run_insecure :
  run X addr chainType path true h0 =
    (Val (insecureKeypairFromAddress X path chainType),
     {| heap := h0; trace := [EvInsecure path chainType] |}).
Proof. reflexivity. Qed.

Lemma run_not_found :
  os_IsNotExist X (os_Stat X file) = true ->
  run X addr chainType path false h0 =
    (Val (None, None, Some (key_file_not_found file)),
     {| heap := h0; trace := [EvStat file] |}).
Proof.
  intros Hne. unfold run, KeypairFromAddress.
  rewrite (bind_run _ _ _ _ _ (call_os_Stat_run X _ _)).
  by rewrite Hne.
Qed.

Ltac run_to_derivation Hne :=
  unfold run; rewrite init_app_nil;
  unfold KeypairFromAddress;
  rewrite (bind_run _ _ _ _ _ (call_os_Stat_run X _ _));
  rewrite Hne; cbn [slice_is_nil nil_slice base heap trace app];
  rewrite (bind_run _ _ _ _ _ (call_GetPassword_rel X _ _ _ _));
  fold password; cbn [app length];
  rewrite (bind_run _ _ _ _ _ (call_HashPasswordIteratively_rel X _ _ _ _));
  rewrite (view_received _ _ 0 password) by done;
  fold (the_derivation X addr path); fold hash; fold salt; cbn [app length];
  erewrite bind_run by (by apply (zero_received _ _ _ 0 password));
  cbn [insert list_insert].

Lemma run_derivation_error e :
  os_IsNotExist X (os_Stat X file) = false ->
  d_err (the_derivation X addr path) = Some e ->
  run X addr chainType path false h0 =
    (Val (None, None, Some e),
     {| heap := h0 ++ [wiped password; wiped hash; wiped salt];
        trace := trace_to_derivation X addr path h0 (Some e) |}).
Proof.
  intros Hne He. run_to_derivation Hne. rewrite He.
  erewrite bind_run by (by apply (zero_received _ _ _ 1 hash)).
  erewrite bind_run by (by apply (zero_received _ _ _ 2 salt)).
  reflexivity.
Qed.

Lemma run_in_place :
  os_IsNotExist X (os_Stat X file) = false ->
  d_err (the_derivation X addr path) = None ->
  length (content salt) <= length (spare hash) ->
  run X addr chainType path false h0 =
    conclude (the_decryption X addr chainType path)
      {| heap := h0 ++ [wiped password;
                        replicate (length key) x00 ++ drop (length (content salt)) (spare hash);
                        wiped salt];
         trace := trace_to_derivation X addr path h0 None
                    ++ [EvDecrypt file key (keyMapping_index chainType)] |}.
Proof.
  intros Hne He Hfit. run_to_derivation Hne. rewrite He.
  erewrite bind_run by (by apply (append_in_place _ _ _ _ 1 2 hash salt)).
  cbn [insert list_insert].
  erewrite bind_run by (by apply (zero_received _ _ _ 2 salt)).
  cbn [insert list_insert].
  rewrite (bind_run _ _ _ _ _ (call_ReadFromFileAndDecrypt_run X _ _ _ _)).
  cbn [heap trace]. rewrite view_rel. cbn [lookup list_lookup default id].
  rewrite take_two_parts. fold key. fold (the_decryption X addr chainType path).
  unfold conclude. destruct (the_decryption X addr chainType path) as [[kp enc] err].
  erewrite bind_run by (by apply zero_rel; [reflexivity | rewrite !length_app; lia]).
  cbn [insert list_insert]. rewrite drop_two_parts.
  unfold the_key at 1. rewrite <- length_app. fold key.
  destruct err as [e|]; [|reflexivity].
  destruct kp as [k|]; reflexivity.
Qed.

Lemma run_grown :
  os_IsNotExist X (os_Stat X file) = false ->
  d_err (the_derivation X addr path) = None ->
  length (spare hash) < length (content salt) ->
  let newcap :=
    Nat.max (length key)
      (growslice X (length (content hash) + length (spare hash)) (length key)) in
  run X addr chainType path false h0 =
    conclude (the_decryption X addr chainType path)
      {| heap := h0 ++ [wiped password;
                        content hash ++ spare hash;
                        wiped salt;
                        replicate newcap x00];
         trace := trace_to_derivation X addr path h0 None
                    ++ [EvDecrypt file key (keyMapping_index chainType)] |}.
Proof.
  intros Hne He Hbig newcap. run_to_derivation Hne. rewrite He.
  erewrite bind_run by (by apply (append_grown _ _ _ _ 1 2 hash salt)).
  cbn [app length].
  erewrite bind_run by (by apply (zero_received _ _ _ 2 salt)).
  cbn [insert list_insert].
  rewrite (bind_run _ _ _ _ _ (call_ReadFromFileAndDecrypt_run X _ _ _ _)).
  cbn [heap trace]. rewrite view_rel. cbn [lookup list_lookup default id].
  rewrite take_two_parts. fold key. fold (the_decryption X addr chainType path).
  unfold conclude. destruct (the_decryption X addr chainType path) as [[kp enc] err].
  erewrite bind_run by (by apply zero_rel; [reflexivity | rewrite !length_app; lia]).
  cbn [insert list_insert]. rewrite drop_two_parts.
  rewrite <- (length_app (content hash) (content salt)). fold key.
  rewrite <- replicate_add.
  rewrite (Nat.add_comm (length key)), Nat.sub_add by lia. fold newcap.
  destruct err as [e|]; [|reflexivity].
  destruct kp as [k|]; reflexivity.
Qed.

End Runs.

(** ** What every run with password protection leaves behind *)

Section Wake.

Context {Keypair Enclave : Type}.
Variable X : @externals Keypair Enclave.
Variables addr chainType path : string.
Variable h0 : list (list byte).

#[local] Abbreviation file := (key_file path addr).
#[local] Abbreviation password := (the_password X addr path).
#[local] Abbreviation hash := (the_hash X addr path).
#[local] Abbreviation salt := (the_salt X addr path).
#[local] Abbreviation key := (the_key X addr path).
#[local] Abbreviation secure := (run X addr chainType path false h0).

(** Past the existence check the trace is: the three calls up to the
    derivation, then possibly the decryption, then possibly the deletion
    of a key pair; and the arrays of the password and of the salt are
    wiped, however the run ends. *)
Lemma run_secure_cases :
  os_IsNotExist X (os_Stat X file) = false ->
  exists fr tail,
    heap secure.2 = h0 ++ fr /\
    fr !! 0 = Some (wiped password) /\
    fr !! 2 = Some (wiped salt) /\
    trace secure.2 =
      trace_to_derivation X addr path h0 (d_err (the_derivation X addr path)) ++ tail /\
    (tail = [] \/
     tail = [EvDecrypt file key (keyMapping_index chainType)] \/
     exists k, tail = [EvDecrypt file key (keyMapping_index chainType); EvDeleteKeyPair k]).
Proof.
  intros Hne.
  destruct (d_err (the_derivation X addr path)) as [e|] eqn:He.
  - rewrite (run_derivation_error X addr chainType path h0 e Hne He).
    exists [wiped password; wiped hash; wiped salt], [].
    cbn [fst snd heap trace]. rewrite app_nil_r. by eauto 10.
  - destruct (decide (length (content salt) <= length (spare hash))) as [Hfit|Hbig].
    + rewrite (run_in_place X addr chainType path h0 Hne He Hfit).
      unfold conclude.
      destruct (the_decryption X addr chainType path) as [[[k|] enc] [e|]];
        cbn [fst snd heap trace]; eexists _, _;
        (split; [reflexivity|]); (split; [reflexivity|]); (split; [reflexivity|]);
        rewrite <- ?app_assoc; (split; [reflexivity|]); eauto.
    + rewrite (run_grown X addr chainType path h0 Hne He ltac:(lia)).
      unfold conclude.
      destruct (the_decryption X addr chainType path) as [[[k|] enc] [e|]];
        cbn [fst snd heap trace]; eexists _, _;
        (split; [reflexivity|]); (split; [reflexivity|]); (split; [reflexivity|]);
        rewrite <- ?app_assoc; (split; [reflexivity|]); eauto.
Qed.

Lemma password_scrubbed :
  os_IsNotExist X (os_Stat X file) = false ->
  scrubbed (heap secure.2) (received h0 0 password).
Proof.
  intros Hne. destruct (run_secure_cases Hne) as (fr & tail & -> & Hp & _).
  by apply scrubbed_wiped.
Qed.

Lemma salt_scrubbed :
  os_IsNotExist X (os_Stat X file) = false ->
  scrubbed (heap secure.2) (received h0 2 salt).
Proof.
  intros Hne. destruct (run_secure_cases Hne) as (fr & tail & -> & _ & Hs & _).
  by apply scrubbed_wiped.
Qed.

(** The slice the derived key was received in is wiped when the
    derivation fails and when [append] writes in place ... *)
Lemma hash_scrubbed_on_error e :
  os_IsNotExist X (os_Stat X file) = false ->
  d_err (the_derivation X addr path) = Some e ->
  scrubbed (heap secure.2) (received h0 1 hash).
Proof.
  intros Hne He. rewrite (run_derivation_error X addr chainType path h0 e Hne He).
  by apply scrubbed_wiped.
Qed.

Lemma hash_scrubbed_in_place :
  os_IsNotExist X (os_Stat X file) = false ->
  d_err (the_derivation X addr path) = None ->
  length (content salt) <= length (spare hash) ->
  scrubbed (heap secure.2) (received h0 1 hash).
Proof.
  intros Hne He Hfit. rewrite (run_in_place X addr chainType path h0 Hne He Hfit).
  assert (Hgoal : forall t, scrubbed
            (heap (conclude (the_decryption X addr chainType path)
               {| heap := h0 ++ [wiped password;
                     replicate (length key) x00 ++ drop (length (content salt)) (spare hash);
                     wiped salt];
                  trace := t |}).2) (received h0 1 hash)).
  { intros t. unfold conclude.
    destruct (the_decryption X addr chainType path) as [[[k|] enc] [e|]];
      cbn [fst snd heap]; unfold scrubbed, received; rewrite view_rel;
      cbn [lookup list_lookup default len];
      unfold the_key; rewrite length_app, replicate_add, <- app_assoc;
      apply take_app_length'; by rewrite length_replicate. }
  apply Hgoal.
Qed.

(** ... and keeps the derived key when [append] moves to a new array:
    the loop after the decryption zeroes the new array only. *)
Lemma hash_kept_when_grown :
  os_IsNotExist X (os_Stat X file) = false ->
  d_err (the_derivation X addr path) = None ->
  length (spare hash) < length (content salt) ->
  view (heap secure.2) (received h0 1 hash) = content hash.
Proof.
  intros Hne He Hbig. rewrite (run_grown X addr chainType path h0 Hne He Hbig).
  unfold conclude.
  destruct (the_decryption X addr chainType path) as [[[k|] enc] [e|]];
    cbn [fst snd heap]; by apply view_received.
Qed.

(** An error of the decryption that comes with no key pair stops the
    function on the method call [kp.DeleteKeyPair()]. *)
Lemma decrypt_error_without_keypair enc e :
  os_IsNotExist X (os_Stat X file) = false ->
  d_err (the_derivation X addr path) = None ->
  the_decryption X addr chainType path = (None, enc, Some e) ->
  secure.1 = Fault NilDereference.
Proof.
  intros Hne He Hdec.
  destruct (decide (length (content salt) <= length (spare hash))) as [Hfit|Hbig].
  - rewrite (run_in_place X addr chainType path h0 Hne He Hfit). by rewrite Hdec.
  - rewrite (run_grown X addr chainType path h0 Hne He ltac:(lia)). by rewrite Hdec.
Qed.

Lemma decrypt_error_with_keypair k enc e :
  os_IsNotExist X (os_Stat X file) = false ->
  d_err (the_derivation X addr path) = None ->
  the_decryption X addr chainType path = (Some k, enc, Some e) ->
  secure.1 = Val (None, None, Some e) /\ In (EvDeleteKeyPair k) (trace secure.2).
Proof.
  intros Hne He Hdec.
  destruct (decide (length (content salt) <= length (spare hash))) as [Hfit|Hbig].
  - rewrite (run_in_place X addr chainType path h0 Hne He Hfit). rewrite Hdec.
    cbn [conclude fst snd trace]. split; [done|]. apply in_app_iff. right. by left.
  - rewrite (run_grown X addr chainType path h0 Hne He ltac:(lia)). rewrite Hdec.
    cbn [conclude fst snd trace]. split; [done|]. apply in_app_iff. right. by left.
Qed.

Lemma decrypt_success kp enc :
  os_IsNotExist X (os_Stat X file) = false ->
  d_err (the_derivation X addr path) = None ->
  the_decryption X addr chainType path = (kp, enc, None) ->
  secure.1 = Val (kp, enc, None).
Proof.
  intros Hne He Hdec.
  destruct (decide (length (content salt) <= length (spare hash))) as [Hfit|Hbig].
  - rewrite (run_in_place X addr chainType path h0 Hne He Hfit). by rewrite Hdec.
  - rewrite (run_grown X addr chainType path h0 Hne He ltac:(lia)). by rewrite Hdec.
Qed.

End Wake.

(** A chain type outside [keyMapping] reads as the empty key type. *)
Lemma keyMapping_index_unregistered (chainType : string) :
  chainType <> "ethereum" -> chainType <> "substrate" ->
  keyMapping_index chainType = "".
Proof.
  intros H1 H2. unfold keyMapping_index, keyMapping.
  rewrite lookup_insert_ne by done.
  by rewrite lookup_singleton_ne.
Qed.

Lemma keyMapping_index_registered :
  keyMapping_index "ethereum" = "secp256k1" /\ keyMapping_index "substrate" = "sr25519".
Proof. split; reflexivity. Qed.

(** * The claims *)

Section Claims.

Context {Keypair Enclave : Type}.
Variable X : @externals Keypair Enclave.
Variables addr chainType path : string.
Variable h0 : list (list byte).

(** X14: without password protection switched off, a call in which
    [os.IsNotExist] holds of the error of [os.Stat] returns the error
    "key file not found: <file>" with neither key pair nor enclave, and
    the only call it makes is the [os.Stat] of the file: [GetPassword] is
    not called. *)
Theorem not_exist_error_returns_before_password :
  os_IsNotExist X (os_Stat X (key_file path addr)) = true ->
  (run X addr chainType path false h0).1 =
    Val (None, None, Some (key_file_not_found (key_file path addr))) /\
  trace (run X addr chainType path false h0).2 = [EvStat (key_file path addr)] /\
  existsb is_GetPassword (trace (run X addr chainType path false h0).2) = false.
Proof.
  intros Hne. by rewrite (run_not_found X addr chainType path h0 Hne).
Qed.

(** C5: when [GetPassword] answers the empty byte sequence, and the
    derivation rejects an empty password as its specification says, the
    call returns the error of the derivation, with neither key pair nor
    enclave, and [ReadFromFileAndDecrypt] is not called. *)
Theorem C5_empty_password_fails_before_decryption :
  os_IsNotExist X (os_Stat X (key_file path addr)) = false ->
  content (the_password X addr path) = [] ->
  derivation_rejects_empty X ->
  exists e,
    d_err (HashPasswordIteratively X []) = Some e /\
    (run X addr chainType path false h0).1 = Val (None, None, Some e) /\
    existsb is_Decrypt (trace (run X addr chainType path false h0).2) = false.
Proof.
  intros Hne Hempty [e He]. exists e. split; [done|].
  assert (He' : d_err (the_derivation X addr path) = Some e).
  { unfold the_derivation. by rewrite Hempty. }
  by rewrite (run_derivation_error X addr chainType path h0 e Hne He').
Qed.

(** C6: with [insecure] set the call is the call of
    [insecureKeypairFromAddress path chainType] and nothing else: no
    [os.Stat], no [GetPassword], no [ReadFromFileAndDecrypt]; with
    [insecure] unset [insecureKeypairFromAddress] is never called. *)
Theorem C6_insecure_switch_separates_the_paths :
  ((run X addr chainType path true h0).1 = Val (insecureKeypairFromAddress X path chainType) /\
   trace (run X addr chainType path true h0).2 = [EvInsecure path chainType] /\
   existsb is_Stat (trace (run X addr chainType path true h0).2) = false /\
   existsb is_GetPassword (trace (run X addr chainType path true h0).2) = false /\
   existsb is_Decrypt (trace (run X addr chainType path true h0).2) = false) /\
  existsb is_Insecure (trace (run X addr chainType path false h0).2) = false.
Proof.
  split; [by rewrite run_insecure|].
  destruct (os_IsNotExist X (os_Stat X (key_file path addr))) eqn:Hne.
  - by rewrite (run_not_found X addr chainType path h0 Hne).
  - destruct (run_secure_cases X addr chainType path h0 Hne)
      as (fr & tail & _ & _ & _ & -> & Htail).
    rewrite existsb_app.
    destruct Htail as [-> | [-> | [k ->]]]; reflexivity.
Qed.

(** C8: when the derivation answers an error, the call returns that very
    error with neither key pair nor enclave, the slices in which it
    received the derived key and the salt show only zero bytes, and
    [ReadFromFileAndDecrypt] is not called. *)
Theorem C8_derivation_error_scrubs_and_propagates (e : error) :
  os_IsNotExist X (os_Stat X (key_file path addr)) = false ->
  d_err (the_derivation X addr path) = Some e ->
  (run X addr chainType path false h0).1 = Val (None, None, Some e) /\
  trace (run X addr chainType path false h0).2 =
    trace_to_derivation X addr path h0 (Some e) /\
  scrubbed (heap (run X addr chainType path false h0).2)
    (received h0 1 (the_hash X addr path)) /\
  scrubbed (heap (run X addr chainType path false h0).2)
    (received h0 2 (the_salt X addr path)) /\
  existsb is_Decrypt (trace (run X addr chainType path false h0).2) = false.
Proof.
  intros Hne He.
  pose proof (hash_scrubbed_on_error X addr chainType path h0 e Hne He) as Hh.
  pose proof (salt_scrubbed X addr chainType path h0 Hne) as Hs.
  revert Hh Hs.
  rewrite (run_derivation_error X addr chainType path h0 e Hne He).
  by intros Hh Hs.
Qed.

(** C9: when the derivation succeeds, [ReadFromFileAndDecrypt] is called
    exactly once, on the key file, with the derived hash followed by the
    salt as key material and with [keyMapping[chainType]] as key type. *)
Theorem C9_decryption_key_is_hash_then_salt :
  os_IsNotExist X (os_Stat X (key_file path addr)) = false ->
  d_err (the_derivation X addr path) = None ->
  decrypt_calls (trace (run X addr chainType path false h0).2) =
    [(key_file path addr,
      content (the_hash X addr path) ++ content (the_salt X addr path),
      keyMapping_index chainType)].
Proof.
  intros Hne He.
  destruct (decide (length (content (the_salt X addr path))
                    <= length (spare (the_hash X addr path)))) as [Hfit|Hbig].
  - rewrite (run_in_place X addr chainType path h0 Hne He Hfit). unfold conclude.
    by destruct (the_decryption X addr chainType path) as [[[k|] enc] [e|]].
  - rewrite (run_grown X addr chainType path h0 Hne He ltac:(lia)). unfold conclude.
    by destruct (the_decryption X addr chainType path) as [[[k|] enc] [e|]].
Qed.

(** C10: once the key file is found, the test [pswd == nil] on the fresh
    local variable holds, [GetPassword] is called, once, right after the
    existence check, the password it answers is the one that is hashed,
    and no environment variable is read, [KEYSTORE_PASSWORD] included. *)
Theorem C10_password_always_comes_from_GetPassword :
  os_IsNotExist X (os_Stat X (key_file path addr)) = false ->
  slice_is_nil nil_slice = true /\
  (exists rest,
     trace (run X addr chainType path false h0).2 =
       EvStat (key_file path addr)
       :: EvGetPassword (password_prompt (key_file path addr))
            (received h0 0 (the_password X addr path))
       :: EvHash (content (the_password X addr path))
            (received h0 1 (the_hash X addr path))
            (received h0 2 (the_salt X addr path))
            (d_err (the_derivation X addr path))
       :: rest /\
     existsb is_GetPassword rest = false) /\
  existsb is_Getenv (trace (run X addr chainType path false h0).2) = false /\
  ~ In (EvGetenv EnvPassword) (trace (run X addr chainType path false h0).2).
Proof.
  intros Hne. split; [reflexivity|].
  destruct (run_secure_cases X addr chainType path h0 Hne)
    as (fr & tail & _ & _ & _ & -> & Htail).
  unfold trace_to_derivation. cbn [app].
  split; [exists tail; split; [reflexivity|]|split].
  - destruct Htail as [-> | [-> | [k ->]]]; reflexivity.
  - destruct Htail as [-> | [-> | [k ->]]]; reflexivity.
  - destruct Htail as [-> | [-> | [k ->]]]; cbn [In]; intros H;
      repeat (destruct H as [H|H]; [discriminate H|]); exact H.
Qed.

End Claims.

(** What holds of an unregistered chain type: it reaches the decryption
    as the empty key type, and when the decryption rejects that, no call
    that returns hands out a key pair. *)
Lemma unregistered_chain_returns_no_keypair {Keypair Enclave : Type}
    (X : @externals Keypair Enclave) (addr chainType path : string) (h0 : list (list byte)) :
  chainType <> "ethereum" -> chainType <> "substrate" ->
  os_IsNotExist X (os_Stat X (key_file path addr)) = false ->
  (forall p k, is_Some (ReadFromFileAndDecrypt X p k "").2) ->
  forall kp enc err,
    (run X addr chainType path false h0).1 = Val (kp, enc, err) ->
    kp = None /\ enc = None /\ is_Some err.
Proof.
  intros H1 H2 Hne Hrej kp enc err.
  destruct (d_err (the_derivation X addr path)) as [e|] eqn:He.
  - rewrite (run_derivation_error X addr chainType path h0 e Hne He).
    cbn [fst]. intros [= <- <- <-]. by eauto.
  - pose proof (Hrej (key_file path addr) (the_key X addr path)) as [e Hdec].
    destruct (the_decryption X addr chainType path) as [[kp' enc'] err'] eqn:Hd.
    unfold the_decryption in Hd.
    rewrite (keyMapping_index_unregistered chainType H1 H2) in Hd.
    rewrite Hd in Hdec. cbn [snd] in Hdec. subst err'.
    fold (keyMapping_index chainType) in Hd.
    rewrite <- (keyMapping_index_unregistered chainType H1 H2) in Hd.
    fold (the_decryption X addr chainType path) in Hd.
    destruct kp' as [k|].
    + destruct (decrypt_error_with_keypair X addr chainType path h0 k enc' e Hne He Hd)
        as [-> _].
      intros [= <- <- <-]. by eauto.
    + by rewrite (decrypt_error_without_keypair X addr chainType path h0 enc' e Hne He Hd).
Qed.

(** An error of [os.Stat] that [os.IsNotExist] does not know does not
    stop the call: the password is asked for. *)
Lemma other_stat_error_still_asks_password {Keypair Enclave : Type}
    (X : @externals Keypair Enclave) (addr chainType path : string) (h0 : list (list byte))
    (e : error) :
  os_Stat X (key_file path addr) = Some e ->
  os_IsNotExist X (Some e) = false ->
  existsb is_GetPassword (trace (run X addr chainType path false h0).2) = true.
Proof.
  intros Hs Hne. rewrite <- Hs in Hne.
  destruct (run_secure_cases X addr chainType path h0 Hne)
    as (fr & tail & _ & _ & _ & -> & _).
  by rewrite existsb_app.
Qed.

(** ** The worlds in which the code leaves the specification *)

(** C4: the keystore path [/keys] is not a directory. [os.Stat] of the
    key file fails, there is no key file, but the error is not one that
    [os.IsNotExist] knows: the call does not return the not-found error,
    it asks for the password, derives the key and calls the decryption
    (which cannot read the file and returns no key pair, so that the
    call ends as in C2). *)
Theorem C4_missing_key_file_still_asks_password :
  let W := world_not_a_directory in
  let r := run W "abc" "ethereum" "/keys" false [] in
  os_Stat W (key_file "/keys" "abc") = Some ENOTDIR /\
  os_IsNotExist W (os_Stat W (key_file "/keys" "abc")) = false /\
  existsb is_GetPassword (trace r.2) = true /\
  trace r.2 =
    [EvStat "/keys/abc.key";
     EvGetPassword "Enter password for key /keys/abc.key:" (mkSlice (Some 0) 2 2);
     EvHash [x70; x77] (mkSlice (Some 1) 2 2) (mkSlice (Some 2) 1 1) None;
     EvDecrypt "/keys/abc.key" [x0a; x0b; x0c] "secp256k1"] /\
  r.1 = Fault NilDereference.
Proof. vm_compute. repeat split. Qed.

(** C1: the password is "pw", the derivation answers the hash [0a 0b] in
    an array without spare room and the salt [0c], the decryption
    succeeds. The call returns the key pair; the slices of the password
    and of the salt show zeroes, the slice in which the derived key was
    received still shows [0a 0b]: [append] moved hash and salt to a new
    array (the fourth of the call), and only that one is zeroed after the
    decryption. *)
Theorem C1_derived_key_left_in_memory :
  let r := run (world false [x70; x77] [] decrypt_succeeds)
             "abc" "ethereum" "/keys" false [] in
  r.1 = Val (Some 1, Some 2, None) /\
  trace r.2 =
    [EvStat "/keys/abc.key";
     EvGetPassword "Enter password for key /keys/abc.key:" (mkSlice (Some 0) 2 2);
     EvHash [x70; x77] (mkSlice (Some 1) 2 2) (mkSlice (Some 2) 1 1) None;
     EvDecrypt "/keys/abc.key" [x0a; x0b; x0c] "secp256k1"] /\
  bool_decide (scrubbed (heap r.2) (mkSlice (Some 0) 2 2)) = true /\
  bool_decide (scrubbed (heap r.2) (mkSlice (Some 2) 1 1)) = true /\
  bool_decide (scrubbed (heap r.2) (mkSlice (Some 3) 3 4)) = true /\
  view (heap r.2) (mkSlice (Some 1) 2 2) = [x0a; x0b] /\
  bool_decide (scrubbed (heap r.2) (mkSlice (Some 1) 2 2)) = false.
Proof. vm_compute. repeat split. Qed.

(** C2: the decryption fails, as for a wrong password, and returns no
    key pair with its error. The error branch calls [DeleteKeyPair] on
    the nil interface value: the call panics and returns nothing. *)
Theorem C2_decrypt_error_without_keypair_panics :
  let W := world false [x70; x77] [] decrypt_wrong_password in
  let r := run W "abc" "ethereum" "/keys" false [] in
  ReadFromFileAndDecrypt W "/keys/abc.key" [x0a; x0b; x0c] "secp256k1" =
    (None, None, Some IntegrityError) /\
  decrypt_calls (trace r.2) = [("/keys/abc.key", [x0a; x0b; x0c], "secp256k1")] /\
  r.1 = Fault NilDereference.
Proof. vm_compute. repeat split. Qed.

(** C7: the chain type "bitcoin" is not in [keyMapping]; the decryption
    is asked for the empty key type and rejects it, returning no key
    pair with its error. The call does not return the rejection: it
    panics on [DeleteKeyPair], as in C2. *)
Theorem C7_unregistered_chain_type_panics :
  let W := world false [x70; x77] [] decrypt_registered_only in
  let r := run W "abc" "bitcoin" "/keys" false [] in
  keyMapping_index "bitcoin" = "" /\
  ReadFromFileAndDecrypt W "/keys/abc.key" [x0a; x0b; x0c] "" =
    (None, None, Some UnsupportedKeyType) /\
  decrypt_calls (trace r.2) = [("/keys/abc.key", [x0a; x0b; x0c], "")] /\
  r.1 = Fault NilDereference.
Proof. vm_compute. repeat split. Qed.

(** ** The theorems at work *)

Lemma not_exist_error_returns_before_password_witness :
  let W := world true [x70; x77] [] decrypt_succeeds in
  os_IsNotExist W (os_Stat W (key_file "/keys" "abc")) = true /\
  (run W "abc" "ethereum" "/keys" false []).1 =
    Val (None, None, Some (errorString "key file not found: /keys/abc.key")) /\
  existsb is_GetPassword (trace (run W "abc" "ethereum" "/keys" false []).2) = false.
Proof.
  intros W. split; [reflexivity|].
  destruct (not_exist_error_returns_before_password W "abc" "ethereum" "/keys" [] eq_refl)
    as (Hr & _ & Hp).
  split; [exact Hr | exact Hp].
Defined.

Lemma C5_witness :
  let W := world false [] [] decrypt_succeeds in
  os_IsNotExist W (os_Stat W (key_file "/keys" "abc")) = false /\
  content (the_password W "abc" "/keys") = [] /\
  derivation_rejects_empty W /\
  exists e,
    d_err (HashPasswordIteratively W []) = Some e /\
    (run W "abc" "ethereum" "/keys" false []).1 = Val (None, None, Some e) /\
    existsb is_Decrypt (trace (run W "abc" "ethereum" "/keys" false []).2) = false.
Proof.
  intros W.
  assert (Hrej : derivation_rejects_empty W) by (exists DerivationError; reflexivity).
  split; [reflexivity|]. split; [reflexivity|]. split; [exact Hrej|].
  exact (C5_empty_password_fails_before_decryption W "abc" "ethereum" "/keys" []
           eq_refl eq_refl Hrej).
Defined.

Lemma C8_witness :
  let W := world false [] [x00; x00] decrypt_succeeds in
  os_IsNotExist W (os_Stat W (key_file "/keys" "abc")) = false /\
  d_err (the_derivation W "abc" "/keys") = Some DerivationError /\
  (run W "abc" "substrate" "/keys" false []).1 = Val (None, None, Some DerivationError) /\
  existsb is_Decrypt (trace (run W "abc" "substrate" "/keys" false []).2) = false.
Proof.
  intros W. split; [reflexivity|]. split; [reflexivity|].
  destruct (C8_derivation_error_scrubs_and_propagates W "abc" "substrate" "/keys" []
              DerivationError eq_refl eq_refl) as (Hr & _ & _ & _ & Hd).
  split; [exact Hr | exact Hd].
Defined.

Lemma C9_witness :
  let W := world false [x70; x77] [x00; x00] decrypt_succeeds in
  os_IsNotExist W (os_Stat W (key_file "/keys" "abc")) = false /\
  d_err (the_derivation W "abc" "/keys") = None /\
  decrypt_calls (trace (run W "abc" "substrate" "/keys" false []).2) =
    [("/keys/abc.key", [x0a; x0b; x0c], "sr25519")].
Proof.
  intros W. split; [reflexivity|]. split; [reflexivity|].
  exact (C9_decryption_key_is_hash_then_salt W "abc" "substrate" "/keys" [] eq_refl eq_refl).
Defined.

Lemma C10_witness :
  let W := world false [x70; x77] [] decrypt_succeeds in
  os_IsNotExist W (os_Stat W (key_file "/keys" "abc")) = false /\
  existsb is_Getenv (trace (run W "abc" "ethereum" "/keys" false []).2) = false.
Proof.
  intros W. split; [reflexivity|].
  destruct (C10_password_always_comes_from_GetPassword W "abc" "ethereum" "/keys" [] eq_refl)
    as (_ & _ & Hg & _).
  exact Hg.
Defined.

(** * Further properties of KeypairFromAddress *)

Section Endings.

Context {Keypair Enclave : Type}.
Variable X : @externals Keypair Enclave.
Variables addr chainType path : string.
Variable h0 : list (list byte).

#[local] Abbreviation file := (key_file path addr).
#[local] Abbreviation password := (the_password X addr path).
#[local] Abbreviation hash := (the_hash X addr path).
#[local] Abbreviation salt := (the_salt X addr path).
#[local] Abbreviation key := (the_key X addr path).
#[local] Abbreviation secure := (run X addr chainType path false h0).

(** After a successful derivation the run is the ending [conclude] on a
    state whose new arrays are known: password and salt wiped, the key
    slice zeroed, and the array of the hash wiped exactly when [append]
    wrote in place. *)
Lemma run_after_derivation :
  os_IsNotExist X (os_Stat X file) = false ->
  d_err (the_derivation X addr path) = None ->
  exists fr,
    secure =
      conclude (the_decryption X addr chainType path)
        {| heap := h0 ++ fr;
           trace := trace_to_derivation X addr path h0 None
                      ++ [EvDecrypt file key (keyMapping_index chainType)] |} /\
    fr !! 0 = Some (wiped password) /\
    fr !! 2 = Some (wiped salt) /\
    length fr <= 4 /\
    scrubbed (h0 ++ fr) (key_slice X addr path h0).
Proof.
  intros Hne He. unfold key_slice.
  destruct (decide (length (content salt) <= length (spare hash))) as [Hfit|Hbig].
  - rewrite (run_in_place X addr chainType path h0 Hne He Hfit).
    eexists. split; [reflexivity|]. repeat (split; [reflexivity || (simpl; lia)|]).
    unfold scrubbed. rewrite view_rel. cbn [lookup list_lookup default len].
    apply take_app_length'. by rewrite length_replicate.
  - rewrite (run_grown X addr chainType path h0 Hne He ltac:(lia)).
    eexists. split; [reflexivity|]. repeat (split; [reflexivity || (simpl; lia)|]).
    unfold scrubbed. rewrite view_rel. cbn [lookup list_lookup default len id].
    rewrite take_replicate. f_equal. lia.
Qed.

(** The heap and the trace an ending leaves. *)
Lemma conclude_heap dec (st : @state Keypair) :
  heap (conclude (Enclave:=Enclave) dec st).2 = heap st.
Proof. by destruct dec as [[[k|] enc] [e|]]. Qed.

(** X1: Past the existence check, the slices in which the password and the
    salt were received show only zero bytes when the call ends, whether
    it returns a key pair, returns an error or panics. *)
Theorem password_and_salt_scrubbed_on_every_exit :
  os_IsNotExist X (os_Stat X file) = false ->
  scrubbed (heap secure.2) (received h0 0 password) /\
  scrubbed (heap secure.2) (received h0 2 salt).
Proof.
  intros Hne. split.
  - by apply password_scrubbed.
  - by apply salt_scrubbed.
Qed.

(** X2: When the slice of the derived hash has spare capacity for the whole
    salt, [append] writes in place and the final loop zeroes the array of
    the hash: the slice in which the hash was received shows only zero
    bytes when the call ends. *)
Theorem derived_key_scrubbed_with_spare_capacity :
  os_IsNotExist X (os_Stat X file) = false ->
  d_err (the_derivation X addr path) = None ->
  length (content salt) <= length (spare hash) ->
  scrubbed (heap secure.2) (received h0 1 hash).
Proof. apply hash_scrubbed_in_place. Qed.

(** X3: When the salt is longer than the spare capacity of the hash slice,
    [append] moves to a new array and the slice in which the hash was
    received still shows the derived hash when the call ends. *)
Theorem derived_key_survives_reallocation :
  os_IsNotExist X (os_Stat X file) = false ->
  d_err (the_derivation X addr path) = None ->
  length (spare hash) < length (content salt) ->
  view (heap secure.2) (received h0 1 hash) = content hash.
Proof. apply hash_kept_when_grown. Qed.

(** X4: After a successful derivation the slice handed to the decryption,
    hash then salt, shows only zero bytes when the call ends, whatever
    the decryption answered. *)
Theorem decryption_key_scrubbed_after_use :
  os_IsNotExist X (os_Stat X file) = false ->
  d_err (the_derivation X addr path) = None ->
  len (key_slice X addr path h0) = length (content hash) + length (content salt) /\
  scrubbed (heap secure.2) (key_slice X addr path h0).
Proof.
  intros Hne He. split.
  - unfold key_slice, the_key. rewrite length_app. by destruct (decide _).
  - destruct (run_after_derivation Hne He) as (fr & -> & _ & _ & _ & Hz).
    by rewrite conclude_heap.
Qed.


(** X6: A password-protected call that returns an error returns neither key
    pair nor enclave with it, and the error is the not-found error of the
    key file, the error of the derivation, or the error the decryption
    answered together with a key pair. *)
Theorem error_return_carries_no_keypair kp enc (e : error) :
  secure.1 = Val (kp, enc, Some e) ->
  kp = None /\ enc = None /\
  ((os_IsNotExist X (os_Stat X file) = true /\ e = key_file_not_found file) \/
   (os_IsNotExist X (os_Stat X file) = false /\
    d_err (the_derivation X addr path) = Some e) \/
   (os_IsNotExist X (os_Stat X file) = false /\
    d_err (the_derivation X addr path) = None /\
    exists k enc', the_decryption X addr chainType path = (Some k, enc', Some e))).
Proof.
  destruct (os_IsNotExist X (os_Stat X file)) eqn:Hne.
  { rewrite (run_not_found X addr chainType path h0 Hne).
    cbn [fst]. intros [= <- <- <-]. by eauto 10. }
  destruct (d_err (the_derivation X addr path)) as [e'|] eqn:He.
  { rewrite (run_derivation_error X addr chainType path h0 e' Hne He).
    cbn [fst]. intros [= <- <- <-]. by eauto 10. }
  destruct (run_after_derivation Hne He) as (fr & -> & _).
  destruct (the_decryption X addr chainType path) as [[[k|] enc'] [e'|]];
    cbn [conclude fst]; intros [= <- <- <-] || intros [=]; eauto 10.
Qed.


(** X8: [DeleteKeyPair] is called only on the key pair that the decryption
    answered together with an error, in a password-protected call, which
    then returns that error and no key pair. *)
Theorem DeleteKeyPair_only_after_failed_decryption (insecure : bool) (k : Keypair) :
  In (EvDeleteKeyPair k) (trace (run X addr chainType path insecure h0).2) ->
  insecure = false /\
  exists enc e,
    the_decryption X addr chainType path = (Some k, enc, Some e) /\
    (run X addr chainType path insecure h0).1 = Val (None, None, Some e).
Proof.
  destruct insecure.
  { rewrite run_insecure. cbn [snd trace In]. by intros [|[]]. }
  destruct (os_IsNotExist X (os_Stat X file)) eqn:Hne.
  { rewrite (run_not_found X addr chainType path h0 Hne).
    cbn [snd trace In]. by intros [|[]]. }
  destruct (d_err (the_derivation X addr path)) as [e'|] eqn:He.
  { rewrite (run_derivation_error X addr chainType path h0 e' Hne He).
    cbn [snd trace In trace_to_derivation]. by intros [|[|[|[]]]]. }
  destruct (run_after_derivation Hne He) as (fr & -> & _).
  destruct (the_decryption X addr chainType path) as [[[k'|] enc'] [e'|]];
    cbn [conclude fst snd trace In app trace_to_derivation]; intros Hin;
    repeat (destruct Hin as [Hin|Hin]; [try discriminate Hin|]); try done.
  injection Hin as ->. by eauto.
Qed.

(** X10: A chain type other than "ethereum" and "substrate" is not turned
    down by the function: after a successful derivation the decryption
    is called, once, with the empty string as key type. *)
Theorem unregistered_chain_decrypts_with_empty_key_type :
  chainType <> "ethereum" -> chainType <> "substrate" ->
  os_IsNotExist X (os_Stat X file) = false ->
  d_err (the_derivation X addr path) = None ->
  decrypt_calls (trace secure.2) = [(file, key, "")].
Proof.
  intros H1 H2 Hne He.
  destruct (run_after_derivation Hne He) as (fr & -> & _).
  rewrite (keyMapping_index_unregistered chainType H1 H2).
  by destruct (the_decryption X addr chainType path) as [[[k|] enc] [e|]].
Qed.

(** X11: A password-protected call depends on the chain type through
    [keyMapping] only: two chain types with the same key type give the
    same run. *)
Theorem chain_type_matters_through_keyMapping_only (chainType' : string) :
  keyMapping_index chainType = keyMapping_index chainType' ->
  run X addr chainType path false h0 = run X addr chainType' path false h0.
Proof.
  intros Hk.
  destruct (os_IsNotExist X (os_Stat X file)) eqn:Hne.
  { by rewrite !(run_not_found X addr _ path h0 Hne). }
  destruct (d_err (the_derivation X addr path)) as [e'|] eqn:He.
  { by rewrite !(run_derivation_error X addr _ path h0 e' Hne He). }
  destruct (decide (length (content salt) <= length (spare hash))) as [Hfit|Hbig].
  - rewrite !(run_in_place X addr _ path h0 Hne He Hfit).
    unfold the_decryption. by rewrite Hk.
  - rewrite !(run_grown X addr _ path h0 Hne He ltac:(lia)).
    unfold the_decryption. by rewrite Hk.
Qed.

End Endings.

(** ** The scrubbing loop *)

(** X12: The loop [for i := 0; i < len(s); i++ { s[i] = 0 }] on a slice that
    lies within its backing array does not panic and calls nothing; it
    zeroes the cells the slice shows, and leaves the rest of that array
    and every other array as they were. *)
Theorem scrub_loop_effect {Keypair : Type} (s : slice) (l : nat)
    (st : @state Keypair) (a : list byte) :
  base s = Some l -> heap st !! l = Some a -> len s <= length a ->
  (zero s st).1 = Val tt /\
  trace (zero s st).2 = trace st /\
  heap (zero s st).2 !! l = Some (replicate (len s) x00 ++ drop (len s) a) /\
  (forall l', l' <> l -> heap (zero s st).2 !! l' = heap st !! l') /\
  scrubbed (heap (zero s st).2) s.
Proof.
  intros Hb Hl Hlen. rewrite (zero_run s l st a Hb Hl Hlen).
  cbn [fst snd set_heap heap trace].
  assert (Hin : l < length (heap st)) by (by eapply lookup_lt_Some).
  repeat split.
  - by apply list_lookup_insert_eq.
  - intros l' Hne. by apply list_lookup_insert_ne.
  - unfold scrubbed, view. rewrite Hb, list_lookup_insert_eq by done. simpl.
    apply take_app_length'. by rewrite length_replicate.
Qed.

(** ** The name of the key file *)

Lemma list_ascii_of_string_app (s t : string) :
  list_ascii_of_string (s +:+ t) = list_ascii_of_string s ++ list_ascii_of_string t.
Proof. induction s as [|c s IH]; simpl; [done | by rewrite IH]. Qed.

Lemma string_app_inv_tail (s t u : string) : s +:+ u = t +:+ u -> s = t.
Proof.
  intros H. apply (f_equal list_ascii_of_string) in H.
  rewrite !list_ascii_of_string_app in H. apply app_inv_tail in H.
  rewrite <- (string_of_list_ascii_of_string s), <- (string_of_list_ascii_of_string t).
  by rewrite H.
Qed.

(** X13: In one directory, two different addresses have two different key
    files. *)
Theorem key_file_distinguishes_addresses (path addr addr' : string) :
  addr <> addr' -> key_file path addr <> key_file path addr'.
Proof.
  intros Hne H. apply Hne. unfold key_file in H.
  apply (inj (String.app path)) in H.
  apply (inj (String.app "/")) in H.
  by apply string_app_inv_tail in H.
Qed.

(** ** The further theorems at work *)

Lemma password_and_salt_scrubbed_on_every_exit_witness :
  let W := world false [x70; x77] [] decrypt_wrong_password in
  os_IsNotExist W (os_Stat W (key_file "/keys" "abc")) = false /\
  (run W "abc" "ethereum" "/keys" false []).1 = Fault NilDereference /\
  scrubbed (heap (run W "abc" "ethereum" "/keys" false []).2)
    (received [] 0 (the_password W "abc" "/keys")) /\
  scrubbed (heap (run W "abc" "ethereum" "/keys" false []).2)
    (received [] 2 (the_salt W "abc" "/keys")).
Proof.
  intros W. split; [reflexivity|]. split; [reflexivity|].
  exact (password_and_salt_scrubbed_on_every_exit W "abc" "ethereum" "/keys" [] eq_refl).
Defined.

Lemma derived_key_scrubbed_with_spare_capacity_witness :
  let W := world false [x70; x77] [x00; x00] decrypt_succeeds in
  os_IsNotExist W (os_Stat W (key_file "/keys" "abc")) = false /\
  d_err (the_derivation W "abc" "/keys") = None /\
  length (content (the_salt W "abc" "/keys")) <= length (spare (the_hash W "abc" "/keys")) /\
  scrubbed (heap (run W "abc" "ethereum" "/keys" false []).2)
    (received [] 1 (the_hash W "abc" "/keys")).
Proof.
  intros W.
  assert (Hfit : length (content (the_salt W "abc" "/keys"))
                 <= length (spare (the_hash W "abc" "/keys"))) by (simpl; lia).
  split; [reflexivity|]. split; [reflexivity|]. split; [exact Hfit|].
  exact (derived_key_scrubbed_with_spare_capacity W "abc" "ethereum" "/keys" []
           eq_refl eq_refl Hfit).
Defined.

Lemma derived_key_survives_reallocation_witness :
  let W := world false [x70; x77] [] decrypt_succeeds in
  os_IsNotExist W (os_Stat W (key_file "/keys" "abc")) = false /\
  d_err (the_derivation W "abc" "/keys") = None /\
  length (spare (the_hash W "abc" "/keys")) < length (content (the_salt W "abc" "/keys")) /\
  view (heap (run W "abc" "ethereum" "/keys" false []).2)
    (received [] 1 (the_hash W "abc" "/keys")) = [x0a; x0b].
Proof.
  intros W.
  assert (Hbig : length (spare (the_hash W "abc" "/keys"))
                 < length (content (the_salt W "abc" "/keys"))) by (simpl; lia).
  split; [reflexivity|]. split; [reflexivity|]. split; [exact Hbig|].
  exact (derived_key_survives_reallocation W "abc" "ethereum" "/keys" []
           eq_refl eq_refl Hbig).
Defined.

Lemma decryption_key_scrubbed_after_use_witness :
  let W := world false [x70; x77] [] decrypt_succeeds in
  os_IsNotExist W (os_Stat W (key_file "/keys" "abc")) = false /\
  d_err (the_derivation W "abc" "/keys") = None /\
  key_slice W "abc" "/keys" [] = mkSlice (Some 3) 3 4 /\
  scrubbed (heap (run W "abc" "ethereum" "/keys" false []).2) (key_slice W "abc" "/keys" []).
Proof.
  intros W. split; [reflexivity|]. split; [reflexivity|]. split; [reflexivity|].
  exact (proj2 (decryption_key_scrubbed_after_use W "abc" "ethereum" "/keys" []
                  eq_refl eq_refl)).
Defined.


Lemma error_return_carries_no_keypair_witness :
  let W := world false [x70; x77] [] decrypt_fails_with_keypair in
  (run W "abc" "ethereum" "/keys" false []).1 = Val (None, None, Some IntegrityError) /\
  exists k enc, the_decryption W "abc" "ethereum" "/keys" = (Some k, enc, Some IntegrityError).
Proof.
  intros W. split; [reflexivity|].
  destruct (error_return_carries_no_keypair W "abc" "ethereum" "/keys" []
              None None IntegrityError eq_refl) as (_ & _ & [Hnf | [Hd | Hdec]]).
  - destruct Hnf as [Hnf _]. discriminate Hnf.
  - destruct Hd as [_ Hd]. discriminate Hd.
  - destruct Hdec as (_ & _ & H). exact H.
Defined.


Lemma DeleteKeyPair_only_after_failed_decryption_witness :
  let W := world false [x70; x77] [] decrypt_fails_with_keypair in
  In (EvDeleteKeyPair 1) (trace (run W "abc" "ethereum" "/keys" false []).2) /\
  exists enc e,
    the_decryption W "abc" "ethereum" "/keys" = (Some 1, enc, Some e) /\
    (run W "abc" "ethereum" "/keys" false []).1 = Val (None, None, Some e).
Proof.
  intros W.
  assert (Hin : In (EvDeleteKeyPair 1) (trace (run W "abc" "ethereum" "/keys" false []).2)).
  { vm_compute. auto 10. }
  split; [exact Hin|].
  exact (proj2 (DeleteKeyPair_only_after_failed_decryption W "abc" "ethereum" "/keys" []
                  false 1 Hin)).
Defined.

Lemma unregistered_chain_decrypts_with_empty_key_type_witness :
  let W := world false [x70; x77] [] decrypt_wrong_password in
  "bitcoin" <> "ethereum" /\ "bitcoin" <> "substrate" /\
  os_IsNotExist W (os_Stat W (key_file "/keys" "abc")) = false /\
  d_err (the_derivation W "abc" "/keys") = None /\
  decrypt_calls (trace (run W "abc" "bitcoin" "/keys" false []).2) =
    [("/keys/abc.key", [x0a; x0b; x0c], "")].
Proof.
  intros W.
  assert (H1 : "bitcoin" <> "ethereum") by discriminate.
  assert (H2 : "bitcoin" <> "substrate") by discriminate.
  split; [exact H1|]. split; [exact H2|]. split; [reflexivity|]. split; [reflexivity|].
  exact (unregistered_chain_decrypts_with_empty_key_type W "abc" "bitcoin" "/keys" []
           H1 H2 eq_refl eq_refl).
Defined.

Lemma chain_type_matters_through_keyMapping_only_witness :
  let W := world false [x70; x77] [] decrypt_succeeds in
  keyMapping_index "bitcoin" = keyMapping_index "Ethereum" /\
  run W "abc" "bitcoin" "/keys" false [] = run W "abc" "Ethereum" "/keys" false [].
Proof.
  intros W.
  assert (Hk : keyMapping_index "bitcoin" = keyMapping_index "Ethereum") by reflexivity.
  split; [exact Hk|].
  exact (chain_type_matters_through_keyMapping_only W "abc" "bitcoin" "/keys" []
           "Ethereum" Hk).
Defined.

Lemma scrub_loop_effect_witness :
  let st := ({| heap := [[x01; x02; x03]; [x04]]; trace := [] |} : @state nat) in
  let s := mkSlice (Some 0) 2 3 in
  heap st !! 0 = Some [x01; x02; x03] /\
  len s <= length [x01; x02; x03] /\
  heap (zero s st).2 !! 0 = Some [x00; x00; x03] /\
  heap (zero s st).2 !! 1 = Some [x04].
Proof.
  intros st s.
  assert (Hlen : len s <= length [x01; x02; x03]) by (simpl; lia).
  split; [reflexivity|]. split; [exact Hlen|].
  destruct (scrub_loop_effect s 0 st [x01; x02; x03] eq_refl eq_refl Hlen)
    as (_ & _ & Hl & Hother & _).
  split; [exact Hl|]. exact (Hother 1 ltac:(discriminate)).
Defined.

Lemma key_file_distinguishes_addresses_witness :
  "abc" <> "abd" /\ key_file "/keys" "abc" <> key_file "/keys" "abd".
Proof.
  assert (Hne : "abc" <> "abd") by discriminate.
  split; [exact Hne|].
  exact (key_file_distinguishes_addresses "/keys" "abc" "abd" Hne).
Defined.
